(** * Yahtzee scoring rules (src/src/Rules.js)

    A shallow embedding of the rule engine of [Rules.js]: the helpers of the
    base class [Rule] ([sum], [freq], [count]), the six rule classes with
    their [evalRoll] closures, and the named rule instances exported by the
    module.  Dice are JavaScript numbers holding integers; they are modelled
    as [Z].  A JavaScript [Map] keeps its keys in insertion order, so it is
    modelled as an association list; a [Set] is only asked for its [size] and
    for membership, so it is modelled as a [gset Z]. *)

From stdpp Require Import gmap list strings.
From Stdlib Require Import ZArith Lia.

Local Open Scope Z_scope.

(** ** JavaScript completions

    [Array.prototype.reduce] without an initial value throws a [TypeError] on
    an empty array; this is the only exception the rule engine can raise. *)

Inductive JsError : Set := TypeError.

Inductive completion (A : Type) : Type :=
| Returns (v : A)
| Throws (e : JsError).

Arguments Returns {A} v.
Arguments Throws {A} e.

#[global] Instance JsError_eq_dec : EqDecision JsError.
Proof. solve_decision. Defined.

#[global] Instance completion_eq_dec `{EqDecision A} :
  EqDecision (completion A).
Proof. solve_decision. Defined.

(** ** Insertion-ordered [Map] from numbers to numbers *)

Module JsMap.

(** [m.get(k)]: [None] stands for [undefined]. *)
Fixpoint get (m : list (Z * Z)) (k : Z) : option Z :=
  match m with
  | [] => None
  | (k', v) :: m' => if k' =? k then Some v else get m' k
  end.

(** [m.set(k, v)]: an existing key keeps its position, a new key goes last. *)
Fixpoint set (m : list (Z * Z)) (k v : Z) : list (Z * Z) :=
  match m with
  | [] => [(k, v)]
  | (k', v') :: m' =>
      if k' =? k then (k, v) :: m' else (k', v') :: set m' k v
  end.

(** [Array.from(m.values())]. *)
Definition values (m : list (Z * Z)) : list Z := map snd m.

Definition keys (m : list (Z * Z)) : list Z := map fst m.

End JsMap.

(** [x || 0] where [x] is [undefined] or a number. *)
Definition or_zero (x : option Z) : Z :=
  match x with
  | Some c => if c =? 0 then 0 else c
  | None => 0
  end.

(** ** Helpers of the base class [Rule] *)

(** [dice.reduce((prev, curr) => prev + curr)] *)
Definition sum (dice : list Z) : completion Z :=
  match dice with
  | [] => Throws TypeError
  | d :: rest => Returns (fold_left (fun prev curr => prev + curr) rest d)
  end.

(** The body of the loop [for (let d of dice) freqs.set(d, (freqs.get(d) || 0) + 1)]. *)
Definition freq_step (freqs : list (Z * Z)) (d : Z) : list (Z * Z) :=
  JsMap.set freqs d (or_zero (JsMap.get freqs d) + 1).

Definition freq_map (dice : list Z) : list (Z * Z) :=
  fold_left freq_step dice [].

Definition freq (dice : list Z) : list Z :=
  JsMap.values (freq_map dice).

(** [dice.filter(d => d === val).length] *)
Definition count (dice : list Z) (val : Z) : Z :=
  Z.of_nat (length (List.filter (fun d => d =? val) dice)).

(** [a.some(p)] *)
Definition some (p : Z -> bool) (a : list Z) : bool := existsb p a.

(** [a[0] === n]: [a[0]] is [undefined] on an empty array. *)
Definition first_is (a : list Z) (n : Z) : bool :=
  match a !! 0%nat with
  | Some c => c =? n
  | None => false
  end.

(** [d.has(v)] on [d = new Set(dice)]. *)
Definition has (d : gset Z) (v : Z) : bool := bool_decide (v ∈ d).

(** ** The rule classes

    The constructor of [Rule] copies its parameter object onto the instance,
    so an instance is determined by its class and its parameters: [val] for
    [TotalOneNumber], [count] for [SumDistro] (on such an instance the
    property [count] hides the method [count] of the base class), [score]
    for the four rules that pay a flat score.  The [description] takes no
    part in scoring. *)

Inductive Rule : Type :=
| TotalOneNumber (val : Z) (description : string)
| SumDistro (count : Z) (description : string)
| FullHouse (score : Z) (description : string)
| SmallStraight (score : Z) (description : string)
| LargeStraight (score : Z) (description : string)
| Yahtzee (score : Z) (description : string).

(** The [evalRoll] closure of each class, applied to its instance. *)
Definition evalRoll (r : Rule) (dice : list Z) : completion Z :=
  match r with
  | TotalOneNumber val _ =>
      (* this.val * this.count(dice, this.val) *)
      Returns (val * count dice val)
  | SumDistro this_count _ =>
      (* this.freq(dice).some(c => c >= this.count) ? this.sum(dice) : 0 *)
      if some (fun c => c >=? this_count) (freq dice) then sum dice
      else Returns 0
  | FullHouse score _ =>
      (* some(c => c === 3) && some(c => c === 2) ? this.score : 0 *)
      Returns (if some (fun c => c =? 3) (freq dice)
                  && some (fun c => c =? 2) (freq dice)
               then score else 0)
  | SmallStraight score _ =>
      (* (d.size === 4 && (!d.has(1) && !d.has(2) || !d.has(1) && !d.has(6)
                           || !d.has(5) && !d.has(6)))
         || (d.size === 5 && (!d.has(1) || !d.has(6))) ? this.score : 0 *)
      let d : gset Z := list_to_set dice in
      Returns (if ((size d =? 4)%nat
                   && ((negb (has d 1) && negb (has d 2))
                       || (negb (has d 1) && negb (has d 6))
                       || (negb (has d 5) && negb (has d 6))))
                  || ((size d =? 5)%nat
                      && (negb (has d 1) || negb (has d 6)))
               then score else 0)
  | LargeStraight score _ =>
      (* d.size === 5 && (!d.has(1) || !d.has(6)) ? this.score : 0 *)
      let d : gset Z := list_to_set dice in
      Returns (if (size d =? 5)%nat && (negb (has d 1) || negb (has d 6))
               then score else 0)
  | Yahtzee score _ =>
      (* this.freq(dice)[0] === 5 ? this.score : 0 *)
      Returns (if first_is (freq dice) 5 then score else 0)
  end.

(** ** The exported rule instances

    Three descriptions start with a tab character. *)

Definition tab : string := String (Ascii.ascii_of_nat 9) EmptyString.

Definition ones := TotalOneNumber 1 "1 point for each ones".
Definition twos := TotalOneNumber 2 "2 point for each twos".
Definition threes := TotalOneNumber 3 "3 point for each threes".
Definition fours := TotalOneNumber 4 "4 point for each fours".
Definition fives := TotalOneNumber 5 "5 point for each fives".
Definition sixes := TotalOneNumber 6 "6 point for each sixs".
Definition threeOfKind := SumDistro 3 "Sum of dice for 3 same dices".
Definition fourOfKind := SumDistro 4 "Sum of dice for 4 same dices".
Definition fullHouse :=
  FullHouse 25 (tab +:+ "If 3 of one value and 2 of another, score 25").
Definition smallStraight :=
  SmallStraight 30 (tab +:+ "If 4+ values in a row, score 30").
Definition largeStraight := LargeStraight 40 "If 5 values in a row, score 40".
Definition yahtzee := Yahtzee 50 "If all values match, score 50".
Definition chance := SumDistro 0 (tab +:+ "Score sum of all dice").

Definition exported_rules : list Rule :=
  [ones; twos; threes; fours; fives; sixes; threeOfKind; fourOfKind;
   fullHouse; smallStraight; largeStraight; yahtzee; chance].

(** ** Hands *)

(** A hand is five dice, each showing a face between 1 and 6. *)
Definition valid_hand (dice : list Z) : Prop :=
  length dice = 5%nat ∧ Forall (fun d => 1 ≤ d ≤ 6) dice.

Definition faces : list Z := [1; 2; 3; 4; 5; 6].

(** The distinct values of a list, in the order of their first appearance:
    the order in which [freq] inserts its keys. *)
Fixpoint first_occurrences (l : list Z) : list Z :=
  match l with
  | [] => []
  | x :: l' => x :: filter (λ y, y ≠ x) (first_occurrences l')
  end.

(** The association list that maps each key of [ks] to [f k]. *)
Definition graph (f : Z → Z) (ks : list Z) : list (Z * Z) :=
  map (λ k, (k, f k)) ks.

(** ** Reference notions

    The properties below are stated against these notions, which are defined
    on the hand directly and independently of the helpers above. *)

(** The sum of the dice. *)
Definition total (dice : list Z) : Z := foldr Z.add 0 dice.

(** The number of dice showing [v]. *)
Definition occurrences (dice : list Z) (v : Z) : nat :=
  count_occ Z.eq_dec dice v.

(** The largest number of dice showing one face. *)
Definition max_frequency (dice : list Z) : nat :=
  max_list (occurrences dice <$> dice).

(** Some face shows on exactly [n] dice. *)
Definition has_frequency (dice : list Z) (n : nat) : Prop :=
  ∃ v, v ∈ dice ∧ occurrences dice v = n.

(** The number of distinct faces of the hand. *)
Definition num_distinct (dice : list Z) : nat := length (remove_dups dice).

Definition all_equal (dice : list Z) : Prop :=
  ∀ x y, x ∈ dice → y ∈ dice → x = y.

(** The acceptance condition of [SmallStraight], in words: four distinct
    faces that leave out both members of one of the pairs {1,2}, {1,6},
    {5,6}, or five distinct faces that leave out 1 or leave out 6. *)
Definition small_straight_pattern (dice : list Z) : Prop :=
  (num_distinct dice = 4%nat
   ∧ (((1 ∉ dice) ∧ (2 ∉ dice))
      ∨ ((1 ∉ dice) ∧ (6 ∉ dice))
      ∨ ((5 ∉ dice) ∧ (6 ∉ dice))))
  ∨ (num_distinct dice = 5%nat ∧ (1 ∉ dice ∨ 6 ∉ dice)).

(** The acceptance condition of [LargeStraight], in words. *)
Definition large_straight_pattern (dice : list Z) : Prop :=
  num_distinct dice = 5%nat ∧ (1 ∉ dice ∨ 6 ∉ dice).

#[global] Instance small_straight_pattern_dec dice :
  Decision (small_straight_pattern dice).
Proof. unfold small_straight_pattern. apply _. Defined.

#[global] Instance large_straight_pattern_dec dice :
  Decision (large_straight_pattern dice).
Proof. unfold large_straight_pattern. apply _. Defined.

(** The longest run of consecutive faces present in the hand, found by
    walking the faces in increasing order: [cur] is the length of the run
    that ends at the previous face, [best] the longest run seen so far. *)
Fixpoint scan_runs (vs dice : list Z) (cur best : nat) : nat :=
  match vs with
  | [] => best
  | v :: vs' =>
      if bool_decide (v ∈ dice)
      then scan_runs vs' dice (S cur) (Nat.max best (S cur))
      else scan_runs vs' dice 0%nat best
  end.

Definition longest_run (dice : list Z) : nat := scan_runs faces dice 0%nat 0%nat.

(** Every hand of five dice over the six faces. *)
Definition all_hands : list (list Z) :=
  d1 ← faces; d2 ← faces; d3 ← faces; d4 ← faces; d5 ← faces;
  [[d1; d2; d3; d4; d5]].

(** The score a rule pays when its pattern is met, for the four rules that
    pay a flat score. *)
Definition flat_score (r : Rule) : option Z :=
  match r with
  | FullHouse score _ | SmallStraight score _
  | LargeStraight score _ | Yahtzee score _ => Some score
  | TotalOneNumber _ _ | SumDistro _ _ => None
  end.

(** The values a rule can pay on a hand according to its documentation:
    the face value times the number of matching dice, the sum of the hand or
    nothing, the flat score or nothing. *)
Definition documented_value (r : Rule) (dice : list Z) (v : Z) : Prop :=
  match r with
  | TotalOneNumber val _ => v = val * Z.of_nat (occurrences dice val)
  | SumDistro _ _ => v = 0 ∨ v = total dice
  | FullHouse score _ | SmallStraight score _
  | LargeStraight score _ | Yahtzee score _ => v = 0 ∨ v = score
  end.

(** ** The rule row (src/src/RuleRow.js)

    A React class component with the state [{clicked}].  Two facts of React
    are part of the model: [setState] queues a partial state and leaves
    [this.state] as it is while the event handler runs, and the queue is
    merged into the state once the handler has returned.  The callback
    [props.doScore] belongs to the parent; its calls are recorded. *)

Module RuleRow.

Section component.

(** The type of [props.score], whatever the parent passes. *)
Context {Score : Type}.

Record Props : Type := {
  name : string;
  score : Score;
  description : string
}.

Record State : Set := { clicked : bool }.

(** A mounted component: [this.state] and the partial states queued by
    [setState] during the running handler. *)
Record Instance : Set := {
  state : State;
  queued : list State
}.

Inductive Effect : Set := DoScore.

(** [this.state = {clicked : false}] *)
Definition constructor : Instance :=
  {| state := {| clicked := false |}; queued := [] |}.

Definition setState (partial : State) (this : Instance) : Instance :=
  {| state := state this; queued := queued this ++ [partial] |}.

(** React merges the queued partial states in order; the state has a single
    field, so each partial state replaces it. *)
Definition flush (this : Instance) : Instance :=
  {| state := fold_left (λ _ partial, partial) (queued this) (state this);
     queued := [] |}.

(** [this.setState({clicked : true});
     this.state.clicked ? null : this.props.doScore()] *)
Definition handleClick (this : Instance) : Instance * list Effect :=
  let this1 := setState {| clicked := true |} this in
  (this1, if clicked (state this1) then [] else [DoScore]).

(** One click on the row: the handler runs, then React applies the queue. *)
Definition click (this : Instance) : Instance * list Effect :=
  let '(this1, effects) := handleClick this in (flush this1, effects).

(** A series of clicks, with the calls of [doScore] in order. *)
Fixpoint clicks (n : nat) (this : Instance) : Instance * list Effect :=
  match n with
  | O => (this, [])
  | S n' =>
      let '(this1, effects1) := click this in
      let '(this2, effects2) := clicks n' this1 in
      (this2, effects1 ++ effects2)
  end.

(** The content of the second cell: the score or the description. *)
Inductive Cell : Type :=
| ScoreCell (s : Score)
| DescriptionCell (d : string).

Record Row : Type := {
  className : string;
  nameCell : string;
  scoreCell : Cell
}.

Definition render (props : Props) (this : Instance) : Row :=
  {| className := if clicked (state this) then "RuleRow RuleRow-disabled"
                  else "RuleRow RuleRow-active";
     nameCell := name props;
     scoreCell := if clicked (state this) then ScoreCell (score props)
                  else DescriptionCell (description props) |}.

End component.

End RuleRow.

(** Closes [valid_hand] on a literal hand. *)
Ltac solve_valid_hand := split; [reflexivity | repeat constructor; lia].

(** * Properties of the helpers *)

Section count_facts.

Implicit Types (dice l : list Z) (v d : Z).

Lemma count_nil v : count [] v = 0.
Proof. reflexivity. Qed.

Lemma count_cons d l v :
  count (d :: l) v = (if d =? v then 1 else 0) + count l v.
Proof.
  unfold count. simpl. destruct (d =? v); simpl length; lia.
Qed.

Lemma count_app l1 l2 v : count (l1 ++ l2) v = count l1 v + count l2 v.
Proof.
  induction l1 as [|d l1 IH]; [reflexivity|].
  simpl app. rewrite !count_cons, IH. lia.
Qed.

Lemma count_nonneg l v : 0 ≤ count l v.
Proof. unfold count. lia. Qed.

Lemma count_le_length l v : count l v ≤ Z.of_nat (length l).
Proof.
  induction l as [|d l IH]; [reflexivity|].
  rewrite count_cons. simpl length. destruct (d =? v); lia.
Qed.

Lemma count_zero_iff l v : count l v = 0 ↔ v ∉ l.
Proof.
  induction l as [|d l IH].
  - split; [intros _; apply not_elem_of_nil | reflexivity].
  - rewrite count_cons, not_elem_of_cons.
    pose proof (count_nonneg l v).
    destruct (Z.eqb_spec d v) as [->|Hne].
    + split; [lia | intros [? _]; congruence].
    + rewrite Z.add_0_l, IH. split; [intros ?; split; congruence | tauto].
Qed.

Lemma count_pos_iff l v : 0 < count l v ↔ v ∈ l.
Proof.
  pose proof (count_nonneg l v). split.
  - intros Hpos. destruct (decide (v ∈ l)) as [|Hnin]; [done|].
    apply count_zero_iff in Hnin. lia.
  - intros Hin. assert (count l v ≠ 0) by (rewrite count_zero_iff; tauto). lia.
Qed.

(** [count] agrees with the standard library's occurrence count. *)
Lemma count_count_occ l v : count l v = Z.of_nat (count_occ Z.eq_dec l v).
Proof.
  induction l as [|d l IH]; [reflexivity|].
  rewrite count_cons, IH. simpl count_occ.
  destruct (Z.eqb_spec d v), (Z.eq_dec d v); try congruence; lia.
Qed.

Lemma count_Permutation l1 l2 v : l1 ≡ₚ l2 → count l1 v = count l2 v.
Proof.
  induction 1 as [|x k1 k2 _ IH|x y k|k1 k2 k3 _ IH1 _ IH2].
  - reflexivity.
  - rewrite !count_cons, IH. reflexivity.
  - rewrite !count_cons. lia.
  - congruence.
Qed.

(** A value fills the whole list exactly when its count is the length. *)
Lemma count_eq_length l v :
  count l v = Z.of_nat (length l) ↔ Forall (λ d, d = v) l.
Proof.
  induction l as [|d l IH].
  - split; [constructor | reflexivity].
  - rewrite count_cons, Forall_cons. simpl length.
    pose proof (count_le_length l v).
    destruct (Z.eqb_spec d v) as [->|Hne].
    + rewrite <- IH. split; [intros; split; [done | lia] | intros [_ ?]; lia].
    + split; [lia | intros [? _]; congruence].
Qed.

End count_facts.

Section first_occurrences_facts.

Implicit Types (l : list Z) (x d : Z).

Lemma elem_of_first_occurrences l x : x ∈ first_occurrences l ↔ x ∈ l.
Proof.
  induction l as [|y l IH]; simpl; [done|].
  rewrite !elem_of_cons, list_elem_of_filter, IH.
  destruct (decide (x = y)); tauto.
Qed.

Lemma NoDup_first_occurrences l : NoDup (first_occurrences l).
Proof.
  induction l as [|y l IH]; simpl; constructor.
  - rewrite list_elem_of_filter. intros [Hne _]. by apply Hne.
  - by apply NoDup_filter.
Qed.

Lemma first_occurrences_snoc l d :
  first_occurrences (l ++ [d]) =
    if decide (d ∈ l) then first_occurrences l
    else first_occurrences l ++ [d].
Proof.
  induction l as [|x l IH].
  - rewrite decide_False by apply not_elem_of_nil. reflexivity.
  - cbn [app first_occurrences]. rewrite IH.
    destruct (decide (d = x)) as [->|Hne].
    + rewrite (decide_True (P := x ∈ x :: l)) by left.
      destruct (decide (x ∈ l)); [reflexivity|].
      rewrite filter_app, filter_cons_False, filter_nil by (intros ?; done).
      by rewrite app_nil_r.
    + destruct (decide (d ∈ l)) as [Hin|Hnin].
      * rewrite decide_True by (by right). reflexivity.
      * rewrite decide_False by (rewrite elem_of_cons; intros [?|?]; done).
        rewrite filter_app, filter_cons_True, filter_nil by done.
        reflexivity.
Qed.

Lemma first_occurrences_Permutation l1 l2 :
  l1 ≡ₚ l2 → first_occurrences l1 ≡ₚ first_occurrences l2.
Proof.
  intros Hp. apply NoDup_Permutation; try apply NoDup_first_occurrences.
  intros x. rewrite !elem_of_first_occurrences. by rewrite Hp.
Qed.

End first_occurrences_facts.


(** ** Sample evaluations *)

Example twos_sample : evalRoll twos [2; 2; 2; 5; 6] = Returns 6.
Proof. reflexivity. Qed.

Example three_of_kind_no_triple : evalRoll threeOfKind [1; 2; 3; 4; 5] = Returns 0.
Proof. reflexivity. Qed.

(** Frequencies come in the order in which the faces first appear. *)
Example freq_sample : freq [3; 1; 3; 2; 1] = [2; 2; 1].
Proof. reflexivity. Qed.

(** [Yahtzee] reads the first frequency only: on six dice the order of the
    dice matters, which is why the rearrangement property below is stated for
    hands of five. *)
Example yahtzee_six_dice :
  evalRoll yahtzee [1; 1; 1; 1; 1; 2] = Returns 50
  ∧ evalRoll yahtzee [2; 1; 1; 1; 1; 1] = Returns 0.
Proof. split; reflexivity. Qed.

(** ** The frequency map

    [freq] builds its [Map] one die at a time.  On an association list that
    is the graph of a function over duplicate-free keys, [get] and [set] have
    closed forms; the loop keeps the map in that shape. *)

Section freq_facts.

Implicit Types (dice l ks : list Z) (d k v : Z) (f : Z → Z).

Lemma get_graph f ks d :
  JsMap.get (graph f ks) d = if decide (d ∈ ks) then Some (f d) else None.
Proof.
  induction ks as [|k ks IH].
  - rewrite decide_False by apply not_elem_of_nil. reflexivity.
  - cbn [graph map JsMap.get]. fold (graph f ks). rewrite IH.
    destruct (Z.eqb_spec k d) as [->|Hne].
    + rewrite decide_True by left. reflexivity.
    + destruct (decide (d ∈ ks)) as [Hin|Hnin].
      * rewrite decide_True by (by right). reflexivity.
      * rewrite decide_False by (rewrite elem_of_cons; intros [?|?]; done).
        reflexivity.
Qed.

Lemma graph_ext f g ks : (∀ k, k ∈ ks → f k = g k) → graph f ks = graph g ks.
Proof.
  intros Hfg. unfold graph. apply map_ext_in. intros k Hk.
  rewrite (Hfg k); [reflexivity | by apply list_elem_of_In].
Qed.

Lemma set_graph_fresh f ks d v :
  d ∉ ks → JsMap.set (graph f ks) d v = graph f ks ++ [(d, v)].
Proof.
  induction ks as [|k ks IH]; intros Hnin; [reflexivity|].
  apply not_elem_of_cons in Hnin as [Hne Hnin].
  cbn [graph map JsMap.set]. fold (graph f ks).
  destruct (Z.eqb_spec k d) as [->|_]; [done|].
  rewrite IH by done. reflexivity.
Qed.

Lemma set_graph_present f ks d v :
  NoDup ks → d ∈ ks →
  JsMap.set (graph f ks) d v = graph (λ k, if k =? d then v else f k) ks.
Proof.
  induction ks as [|k ks IH]; intros Hnd Hin.
  - by apply elem_of_nil in Hin.
  - apply NoDup_cons in Hnd as [Hk Hnd].
    cbn [graph map JsMap.set]. fold (graph f ks).
    fold (graph (λ k, if k =? d then v else f k) ks).
    destruct (Z.eqb_spec k d) as [->|Hne].
    + f_equal. apply graph_ext. intros k Hin'.
      destruct (Z.eqb_spec k d) as [->|_]; done.
    + f_equal. apply IH; [done|].
      apply elem_of_cons in Hin as [->|Hin]; done.
Qed.

(** The map built by [freq]: every distinct die, in order of first
    appearance, with its number of occurrences. *)
Lemma freq_map_graph dice :
  freq_map dice = graph (count dice) (first_occurrences dice).
Proof.
  induction dice as [|d dice IH] using rev_ind; [reflexivity|].
  unfold freq_map in *. rewrite fold_left_app. cbn [fold_left].
  rewrite IH. unfold freq_step. rewrite get_graph, first_occurrences_snoc.
  destruct (decide (d ∈ dice)) as [Hin|Hnin].
  - rewrite decide_True by (by apply elem_of_first_occurrences).
    rewrite set_graph_present
      by (by apply NoDup_first_occurrences || by apply elem_of_first_occurrences).
    apply graph_ext. intros k _. rewrite count_app, count_cons, count_nil.
    apply count_pos_iff in Hin. cbn [or_zero].
    destruct (Z.eqb_spec k d) as [->|Hne].
    + rewrite Z.eqb_refl. destruct (Z.eqb_spec (count dice d) 0); lia.
    + destruct (Z.eqb_spec d k); [congruence | lia].
  - rewrite decide_False by (by rewrite elem_of_first_occurrences).
    rewrite set_graph_fresh by (by rewrite elem_of_first_occurrences).
    unfold graph. rewrite map_app. cbn [map or_zero]. f_equal.
    + apply graph_ext. intros k Hk. rewrite elem_of_first_occurrences in Hk.
      rewrite count_app, count_cons, count_nil.
      destruct (Z.eqb_spec d k) as [->|_]; [contradiction | lia].
    + rewrite count_app, count_cons, count_nil, Z.eqb_refl.
      apply count_zero_iff in Hnin. rewrite Hnin. reflexivity.
Qed.

(** [freq] lists, for every distinct die in order of first appearance, its
    number of occurrences. *)
Lemma freq_first_occurrences dice :
  freq dice = map (count dice) (first_occurrences dice).
Proof.
  unfold freq, JsMap.values. rewrite freq_map_graph. unfold graph.
  rewrite map_map. reflexivity.
Qed.

Lemma elem_of_freq dice c :
  c ∈ freq dice ↔ ∃ v, v ∈ dice ∧ c = count dice v.
Proof.
  rewrite freq_first_occurrences. rewrite list_elem_of_fmap.
  split; intros (v & H1 & H2); exists v.
  - by rewrite <- elem_of_first_occurrences.
  - by rewrite elem_of_first_occurrences.
Qed.

(** [freq(dice).some(p)] asks whether some die of the hand has a count
    accepted by [p]. *)
Lemma some_freq p dice :
  some p (freq dice) = true ↔ ∃ v, v ∈ dice ∧ p (count dice v) = true.
Proof.
  unfold some. rewrite existsb_exists. split.
  - intros (c & Hc & Hp). apply list_elem_of_In, elem_of_freq in Hc.
    destruct Hc as (v & Hv & ->). eauto.
  - intros (v & Hv & Hp). exists (count dice v). split; [|done].
    apply list_elem_of_In, elem_of_freq. eauto.
Qed.

(** The first entry of [freq] counts the first die. *)
Lemma freq_head d dice : freq (d :: dice) !! 0%nat = Some (count (d :: dice) d).
Proof. rewrite freq_first_occurrences. reflexivity. Qed.

Lemma freq_nil : freq [] = [].
Proof. reflexivity. Qed.

Lemma freq_Permutation dice1 dice2 : dice1 ≡ₚ dice2 → freq dice1 ≡ₚ freq dice2.
Proof.
  intros Hp. rewrite !freq_first_occurrences.
  rewrite (map_ext (count dice1) (count dice2))
    by (intros v; by apply count_Permutation).
  by apply Permutation_map, first_occurrences_Permutation.
Qed.

Lemma some_Permutation p (a1 a2 : list Z) : a1 ≡ₚ a2 → some p a1 = some p a2.
Proof.
  intros Hp. apply eq_true_iff_eq. unfold some.
  rewrite !existsb_exists. setoid_rewrite <- list_elem_of_In.
  by setoid_rewrite Hp.
Qed.

End freq_facts.

(** ** Sums *)

Section sum_facts.

Implicit Types (dice l : list Z) (d : Z).

Lemma fold_left_add_total l d :
  fold_left (λ prev curr, prev + curr) l d = d + total l.
Proof.
  revert d. induction l as [|x l IH]; intros d; cbn [fold_left].
  - unfold total. cbn [foldr]. lia.
  - rewrite IH. unfold total. cbn [foldr]. lia.
Qed.

(** On a non-empty list, [sum] returns the total of the dice. *)
Lemma sum_total dice : dice ≠ [] → sum dice = Returns (total dice).
Proof.
  destruct dice as [|d l]; [done|]. intros _. unfold sum.
  rewrite fold_left_add_total. reflexivity.
Qed.

Lemma sum_nil : sum [] = Throws TypeError.
Proof. reflexivity. Qed.

Lemma total_Permutation l1 l2 : l1 ≡ₚ l2 → total l1 = total l2.
Proof.
  induction 1 as [|x k1 k2 _ IH|x y k|k1 k2 k3 _ IH1 _ IH2];
    unfold total in *; cbn [foldr] in *; lia.
Qed.

Lemma total_bounds l :
  Forall (λ d, 1 ≤ d ≤ 6) l →
  Z.of_nat (length l) ≤ total l ≤ 6 * Z.of_nat (length l).
Proof.
  induction 1 as [|d l Hd _ IH]; unfold total in *;
    cbn [foldr length] in *; lia.
Qed.

End sum_facts.

(** ** The set of faces *)

Section set_facts.

Implicit Types (dice : list Z) (v : Z).

Lemma has_list_to_set dice v :
  has (list_to_set dice) v = bool_decide (v ∈ dice).
Proof. unfold has. apply bool_decide_ext, elem_of_list_to_set. Qed.

Lemma size_list_to_set_distinct dice :
  size (list_to_set dice : gset Z) = num_distinct dice.
Proof.
  unfold num_distinct.
  rewrite <- (size_list_to_set (C := gset Z) (remove_dups dice))
    by apply NoDup_remove_dups.
  f_equal. apply set_eq. intros x.
  by rewrite !elem_of_list_to_set, elem_of_remove_dups.
Qed.

Lemma num_distinct_Permutation dice1 dice2 :
  dice1 ≡ₚ dice2 → num_distinct dice1 = num_distinct dice2.
Proof.
  intros Hp. rewrite <- !size_list_to_set_distinct.
  by rewrite (list_to_set_perm_L (C := gset Z) _ _ Hp).
Qed.

(** A list without repetition is as long as its number of distinct values,
    and conversely. *)
Lemma num_distinct_length_NoDup dice :
  num_distinct dice = length dice ↔ NoDup dice.
Proof.
  unfold num_distinct. induction dice as [|d l IH]; [by split; [constructor|]|].
  cbn [remove_dups length]. rewrite NoDup_cons.
  assert (length (remove_dups l) ≤ length l)%nat as Hle.
  { clear IH. induction l as [|x l IHl]; [done|]. cbn [remove_dups length].
    destruct (decide_rel elem_of x l); cbn [length]; lia. }
  destruct (decide_rel elem_of d l) as [Hin|Hnin]; cbn [length].
  - split; [lia | intros [? _]; done].
  - rewrite <- IH. split; [intros; split; [done | lia] | intros [_ ?]; lia].
Qed.

End set_facts.

(** ** Hands *)

Section hand_facts.

Implicit Types (dice : list Z) (v : Z).

Lemma valid_hand_nonempty dice : valid_hand dice → dice ≠ [].
Proof. intros [Hlen _] ->. discriminate Hlen. Qed.

Lemma valid_hand_face dice v : valid_hand dice → v ∈ dice → 1 ≤ v ≤ 6.
Proof. intros [_ Hall] Hv. by apply (proj1 (Forall_forall _ _) Hall). Qed.

Lemma valid_hand_Permutation dice1 dice2 :
  dice1 ≡ₚ dice2 → valid_hand dice1 → valid_hand dice2.
Proof. intros Hp [Hlen Hall]. split; by rewrite <- Hp. Qed.

(** Five different faces that avoid [out] are the five other faces. *)
Lemma five_distinct_faces dice (others : list Z) :
  valid_hand dice → num_distinct dice = 5%nat →
  length others = 5%nat →
  (∀ v, 1 ≤ v ≤ 6 → v ∈ dice → v ∈ others) →
  dice ≡ₚ others.
Proof.
  intros Hvalid Hfive Hlen Hsub. pose proof Hvalid as [Hlen5 _].
  apply submseteq_length_Permutation; [|lia].
  apply NoDup_submseteq.
  - apply num_distinct_length_NoDup. lia.
  - intros v Hv. apply Hsub; [|done]. by apply (valid_hand_face dice).
Qed.

End hand_facts.

(** * The straights *)

Lemma small_straight_test dice :
  let d : gset Z := list_to_set dice in
  ((size d =? 4)%nat
   && ((negb (has d 1) && negb (has d 2))
       || (negb (has d 1) && negb (has d 6))
       || (negb (has d 5) && negb (has d 6))))
  || ((size d =? 5)%nat && (negb (has d 1) || negb (has d 6)))
  = bool_decide (small_straight_pattern dice).
Proof.
  cbv zeta. rewrite !has_list_to_set, size_list_to_set_distinct.
  apply eq_true_iff_eq. unfold small_straight_pattern.
  rewrite bool_decide_eq_true.
  rewrite !orb_true_iff, !andb_true_iff, !orb_true_iff, !andb_true_iff.
  rewrite !negb_true_iff, !bool_decide_eq_false, !Nat.eqb_eq.
  tauto.
Qed.

Lemma large_straight_test dice :
  let d : gset Z := list_to_set dice in
  (size d =? 5)%nat && (negb (has d 1) || negb (has d 6))
  = bool_decide (large_straight_pattern dice).
Proof.
  cbv zeta. rewrite !has_list_to_set, size_list_to_set_distinct.
  apply eq_true_iff_eq. unfold large_straight_pattern.
  rewrite bool_decide_eq_true, andb_true_iff, orb_true_iff.
  rewrite !negb_true_iff, !bool_decide_eq_false, !Nat.eqb_eq.
  reflexivity.
Qed.

(** A hand meets the large-straight pattern exactly when it is 1-2-3-4-5 or
    2-3-4-5-6 in some order. *)
Lemma large_straight_pattern_runs dice :
  valid_hand dice →
  large_straight_pattern dice ↔
    dice ≡ₚ [1; 2; 3; 4; 5] ∨ dice ≡ₚ [2; 3; 4; 5; 6].
Proof.
  intros Hvalid. split.
  - intros [Hfive [Hno1 | Hno6]]; [right | left];
      (apply five_distinct_faces; [done | done | done |]);
      intros v Hv Hin; assert (v ≠ 1 ∨ v ≠ 6) as _ by lia.
    + assert (v ≠ 1) by (by intros ->). rewrite !elem_of_cons. lia.
    + assert (v ≠ 6) by (by intros ->). rewrite !elem_of_cons. lia.
  - intros [Hp | Hp]; split.
    + by rewrite (num_distinct_Permutation _ _ Hp).
    + right. rewrite Hp. compute_done.
    + by rewrite (num_distinct_Permutation _ _ Hp).
    + left. rewrite Hp. compute_done.
Qed.

(** C2. [SmallStraight.evalRoll] pays the flat score exactly when the hand
    has four distinct faces that leave out both members of one of the pairs
    {1,2}, {1,6}, {5,6}, or five distinct faces that leave out 1 or leave
    out 6; otherwise it pays 0.  This holds for every list of dice, in
    particular for every hand of five dice between 1 and 6. *)
Theorem small_straight_by_pattern score description dice :
  evalRoll (SmallStraight score description) dice =
    Returns (if decide (small_straight_pattern dice) then score else 0).
Proof.
  unfold evalRoll. rewrite small_straight_test.
  case_bool_decide; [rewrite decide_True by done | rewrite decide_False by done];
    reflexivity.
Qed.

(** C8. On a hand of five dice between 1 and 6, [LargeStraight.evalRoll]
    pays the flat score exactly when the hand has five distinct faces and
    lacks 1 or lacks 6, that is, when the hand is 1-2-3-4-5 or 2-3-4-5-6 in
    some order; otherwise it pays 0.  So 2-3-4-5-6 scores 40 and 1-2-3-4-6
    scores 0. *)
Theorem large_straight_by_pattern score description dice :
  valid_hand dice →
  evalRoll (LargeStraight score description) dice =
    Returns (if decide (large_straight_pattern dice) then score else 0)
  ∧ (large_straight_pattern dice ↔
       dice ≡ₚ [1; 2; 3; 4; 5] ∨ dice ≡ₚ [2; 3; 4; 5; 6])
  ∧ evalRoll largeStraight [2; 3; 4; 5; 6] = Returns 40
  ∧ evalRoll largeStraight [1; 2; 3; 4; 6] = Returns 0.
Proof.
  intros Hvalid. split; [|split; [|split]].
  - unfold evalRoll. rewrite large_straight_test.
    case_bool_decide;
      [rewrite decide_True by done | rewrite decide_False by done];
      reflexivity.
  - by apply large_straight_pattern_runs.
  - vm_compute. reflexivity.
  - vm_compute. reflexivity.
Qed.

(** * The rules that read the frequencies *)

Section frequency_rules.

Implicit Types (dice : list Z) (v c d : Z) (n : nat).

Lemma count_occurrences dice v : count dice v = Z.of_nat (occurrences dice v).
Proof. apply count_count_occ. Qed.

Lemma occurrences_zero dice v : v ∉ dice → occurrences dice v = 0%nat.
Proof.
  intros Hv. apply count_zero_iff in Hv. rewrite count_occurrences in Hv. lia.
Qed.

Lemma occurrences_pos dice v : v ∈ dice → (0 < occurrences dice v)%nat.
Proof.
  intros Hv. apply count_pos_iff in Hv. rewrite count_occurrences in Hv. lia.
Qed.

(** The test of [SumDistro]: some face shows on at least [c] dice. *)
Lemma some_at_least dice c :
  dice ≠ [] →
  some (λ c', c' >=? c) (freq dice) = true ↔
    ∃ v, c ≤ Z.of_nat (occurrences dice v).
Proof.
  intros Hne. rewrite some_freq. split.
  - intros (v & _ & Hv). exists v. rewrite <- count_occurrences. lia.
  - intros (v & Hv). destruct (decide (v ∈ dice)) as [Hin|Hnin].
    + exists v. split; [done|]. rewrite count_occurrences. lia.
    + destruct dice as [|d l]; [done|]. exists d.
      assert (d ∈ d :: l) as Hd by left. split; [done|].
      apply occurrences_zero in Hnin. apply occurrences_pos in Hd.
      rewrite count_occurrences. lia.
Qed.

Lemma at_least_max_frequency dice c :
  (∃ v, c ≤ Z.of_nat (occurrences dice v)) ↔
    c ≤ Z.of_nat (max_frequency dice).
Proof.
  unfold max_frequency. split.
  - intros (v & Hv). destruct (decide (v ∈ dice)) as [Hin|Hnin].
    + assert (occurrences dice v ∈ occurrences dice <$> dice) as Hocc
        by (apply list_elem_of_fmap; eauto).
      apply max_list_elem_of_le in Hocc. lia.
    + apply occurrences_zero in Hnin. lia.
  - intros Hc. destruct dice as [|d l].
    + exists 0. exact Hc.
    + assert (occurrences (d :: l) <$> d :: l ≠ []) as Hne by done.
      apply max_list_elem_of, list_elem_of_fmap in Hne as (v & Hv & _).
      exists v. lia.
Qed.

(** The tests of [FullHouse]: some face shows on exactly [n] dice. *)
Lemma some_exactly dice n :
  some (λ c, c =? Z.of_nat n) (freq dice) = true ↔ has_frequency dice n.
Proof.
  rewrite some_freq. unfold has_frequency.
  split; intros (v & Hin & Hv); exists v; (split; [done|]);
    rewrite count_occurrences in *; lia.
Qed.

Lemma all_equal_cons d dice :
  all_equal (d :: dice) ↔ Forall (λ x, x = d) (d :: dice).
Proof.
  rewrite Forall_forall. unfold all_equal. split.
  - intros Hall x Hx. apply Hall; [done | left].
  - intros Hall x y Hx Hy. rewrite (Hall x), (Hall y); done.
Qed.

(** The test of [Yahtzee] on five dice: the first frequency is 5 exactly
    when the five dice are equal. *)
Lemma first_is_five dice :
  length dice = 5%nat →
  first_is (freq dice) 5 = true ↔ all_equal dice.
Proof.
  intros Hlen. destruct dice as [|d l]; [done|].
  unfold first_is. rewrite freq_head, all_equal_cons, Z.eqb_eq.
  rewrite <- count_eq_length, Hlen. reflexivity.
Qed.

Lemma first_occurrences_replicate n d :
  first_occurrences (replicate (S n) d) = [d].
Proof.
  induction n as [|n IH]; [reflexivity|].
  change (replicate (S (S n)) d) with (d :: replicate (S n) d).
  cbn [first_occurrences]. rewrite IH.
  rewrite filter_cons_False by (intros ?; done). reflexivity.
Qed.

(** Five equal dice give a single frequency, 5. *)
Lemma freq_all_equal dice :
  length dice = 5%nat → all_equal dice → freq dice = [5].
Proof.
  intros Hlen Hall. destruct dice as [|d l]; [done|].
  apply all_equal_cons in Hall.
  assert (replicate 5 d = d :: l) as <-.
  { apply replicate_as_Forall. split; [done|].
    eapply Forall_impl; [exact Hall|]. by intros x ->. }
  rewrite freq_first_occurrences, first_occurrences_replicate.
  cbn [map]. f_equal.
  apply (count_eq_length (replicate 5 d) d). eapply Forall_impl.
  - apply Forall_replicate_eq.
  - by intros x ->.
Qed.

End frequency_rules.

(** C5. On a hand of five dice between 1 and 6, [SumDistro.evalRoll] with
    threshold [c] returns the sum of all dice when some face shows on at
    least [c] dice, which is to say when the largest frequency is at least
    [c], and 0 otherwise.  With threshold 0 (the rule [chance]) it returns the
    sum of the hand; 1-1-1-1-1 scores 5 under [chance] and 3-3-3-4-5 scores
    18 under [threeOfKind]. *)
Theorem sum_distro_by_frequency c description dice :
  valid_hand dice →
  ((∃ v, c ≤ Z.of_nat (occurrences dice v)) →
     evalRoll (SumDistro c description) dice = Returns (total dice))
  ∧ (¬ (∃ v, c ≤ Z.of_nat (occurrences dice v)) →
     evalRoll (SumDistro c description) dice = Returns 0)
  ∧ ((∃ v, c ≤ Z.of_nat (occurrences dice v)) ↔
       c ≤ Z.of_nat (max_frequency dice))
  ∧ evalRoll chance dice = Returns (total dice)
  ∧ evalRoll chance [1; 1; 1; 1; 1] = Returns 5
  ∧ evalRoll threeOfKind [3; 3; 3; 4; 5] = Returns 18.
Proof.
  intros Hvalid. pose proof (valid_hand_nonempty _ Hvalid) as Hne.
  assert (∀ c', (∃ v, c' ≤ Z.of_nat (occurrences dice v)) →
            ∀ descr, evalRoll (SumDistro c' descr) dice = Returns (total dice))
    as Hmeets.
  { intros c' Hc descr. apply (some_at_least dice c' Hne) in Hc.
    unfold evalRoll. rewrite Hc. by apply sum_total. }
  repeat split.
  - intros Hc. by apply Hmeets.
  - intros Hc. unfold evalRoll.
    destruct (some _ (freq dice)) eqn:Hsome; [|reflexivity].
    apply (some_at_least dice c Hne) in Hsome. contradiction.
  - by apply at_least_max_frequency.
  - by apply at_least_max_frequency.
  - apply Hmeets. exists 0. lia.
Qed.

(** C6. [FullHouse.evalRoll] pays the flat score exactly when some face
    shows on exactly three dice and, tested separately on the same
    frequencies, some face shows on exactly two dice; otherwise it pays 0.
    This holds for every list of dice, in particular for every hand of five
    dice between 1 and 6.  So 2-2-3-3-3 scores 25 and 2-2-2-2-3 scores 0. *)
Theorem full_house_by_frequency score description dice :
  (has_frequency dice 3 ∧ has_frequency dice 2 →
     evalRoll (FullHouse score description) dice = Returns score)
  ∧ (¬ (has_frequency dice 3 ∧ has_frequency dice 2) →
     evalRoll (FullHouse score description) dice = Returns 0)
  ∧ evalRoll fullHouse [2; 2; 3; 3; 3] = Returns 25
  ∧ evalRoll fullHouse [2; 2; 2; 2; 3] = Returns 0.
Proof.
  pose proof (some_exactly dice 3) as H3. pose proof (some_exactly dice 2) as H2.
  change (Z.of_nat 3) with 3 in H3. change (Z.of_nat 2) with 2 in H2.
  unfold evalRoll. repeat split.
  - intros [Hthree Htwo]. apply H3 in Hthree. apply H2 in Htwo.
    by rewrite Hthree, Htwo.
  - intros Hnot.
    destruct (some _ (freq dice)) eqn:Ethree; [|reflexivity].
    destruct (some (λ c, c =? 2) (freq dice)) eqn:Etwo; [|reflexivity].
    exfalso. apply Hnot. split; [by apply H3 | by apply H2].
Qed.

(** C7. On a hand of five dice between 1 and 6, [Yahtzee.evalRoll] pays the
    flat score exactly when the five dice are equal, and 0 otherwise; when
    they are equal [freq] returns the single entry 5, so the test of its
    first entry succeeds.  So 4-4-4-4-4 scores 50 and 4-4-4-4-5 scores 0. *)
Theorem yahtzee_by_all_equal score description dice :
  valid_hand dice →
  (all_equal dice → evalRoll (Yahtzee score description) dice = Returns score)
  ∧ (¬ all_equal dice →
     evalRoll (Yahtzee score description) dice = Returns 0)
  ∧ (all_equal dice → freq dice = [5] ∧ first_is (freq dice) 5 = true)
  ∧ evalRoll yahtzee [4; 4; 4; 4; 4] = Returns 50
  ∧ evalRoll yahtzee [4; 4; 4; 4; 5] = Returns 0.
Proof.
  intros [Hlen _]. pose proof (first_is_five dice Hlen) as Hfirst.
  unfold evalRoll. repeat split.
  - intros Hall. apply Hfirst in Hall. by rewrite Hall.
  - intros Hnot. destruct (first_is (freq dice) 5) eqn:E; [|reflexivity].
    exfalso. by apply Hnot, Hfirst.
  - by apply freq_all_equal.
  - by apply Hfirst.
Qed.

(** * Evaluation as a whole *)

Section evaluation.

Implicit Types (r : Rule) (dice : list Z).

(** [evalRoll] never throws: [SumDistro] only calls [sum] after some
    frequency passed its test, and then the list is not empty. *)
Lemma evalRoll_returns r dice : ∃ v, evalRoll r dice = Returns v.
Proof.
  destruct r as [val ?|c ?|score ?|score ?|score ?|score ?];
    cbn [evalRoll]; try by eexists.
  destruct (some _ (freq dice)) eqn:Hsome; [|by eexists].
  destruct dice as [|d l]; [discriminate Hsome|].
  rewrite sum_total by done. by eexists.
Qed.

(** Every rule scores the empty list 0. *)
Lemma evalRoll_nil r : evalRoll r [] = Returns 0.
Proof.
  destruct r as [val ?|c ?|score ?|score ?|score ?|score ?];
    cbn [evalRoll]; try reflexivity.
  rewrite count_nil. f_equal. lia.
Qed.

(** What each rule returns on a hand is one of its documented values. *)
Lemma evalRoll_documented r dice :
  valid_hand dice →
  ∃ v, evalRoll r dice = Returns v ∧ documented_value r dice v.
Proof.
  intros Hvalid. pose proof (valid_hand_nonempty _ Hvalid) as Hne.
  destruct r as [val ?|c ?|score ?|score ?|score ?|score ?];
    cbn [evalRoll documented_value].
  - eexists. split; [reflexivity|]. by rewrite count_occurrences.
  - destruct (some _ (freq dice)).
    + rewrite sum_total by done. eexists. split; [reflexivity | by right].
    + eexists. split; [reflexivity | by left].
  - destruct (_ && _); eexists; (split; [reflexivity|]); [by right | by left].
  - destruct (_ || _); eexists; (split; [reflexivity|]); [by right | by left].
  - destruct (_ && _); eexists; (split; [reflexivity|]); [by right | by left].
  - destruct (first_is _ _); eexists; (split; [reflexivity|]);
      [by right | by left].
Qed.

Lemma all_equal_Permutation dice1 dice2 :
  dice1 ≡ₚ dice2 → all_equal dice1 → all_equal dice2.
Proof.
  intros Hp Hall x y Hx Hy. apply Hall; by rewrite Hp.
Qed.

Lemma sum_Permutation dice1 dice2 : dice1 ≡ₚ dice2 → sum dice1 = sum dice2.
Proof.
  intros Hp. destruct dice1 as [|d1 l1].
  - apply Permutation_nil_l in Hp. by subst.
  - destruct dice2 as [|d2 l2]; [by apply Permutation_nil_r in Hp|].
    rewrite !sum_total by done. f_equal. by apply total_Permutation.
Qed.

End evaluation.

(** C9. For every rule and every hand of five dice between 1 and 6,
    [evalRoll] depends only on the multiset of the dice: any rearrangement of
    the hand gets the same score.  This includes [Yahtzee], which reads only
    the first entry of the frequencies. *)
Theorem evalRoll_Permutation r dice dice' :
  valid_hand dice → dice ≡ₚ dice' → evalRoll r dice' = evalRoll r dice.
Proof.
  intros Hvalid Hp. pose proof (valid_hand_Permutation _ _ Hp Hvalid) as Hvalid'.
  destruct r as [val ?|c ?|score ?|score ?|score ?|score ?]; cbn [evalRoll].
  - by rewrite (count_Permutation _ _ val Hp).
  - rewrite (some_Permutation _ _ _ (freq_Permutation _ _ Hp)).
    by rewrite (sum_Permutation _ _ Hp).
  - by rewrite !(some_Permutation _ _ _ (freq_Permutation _ _ Hp)).
  - by rewrite (list_to_set_perm_L (C := gset Z) _ _ Hp).
  - by rewrite (list_to_set_perm_L (C := gset Z) _ _ Hp).
  - destruct Hvalid as [Hlen _], Hvalid' as [Hlen' _].
    replace (first_is (freq dice') 5) with (first_is (freq dice) 5);
      [reflexivity|].
    apply eq_true_iff_eq. rewrite !first_is_five by done.
    split; apply all_equal_Permutation; [done | by symmetry].
Qed.

(** C10. [SumDistro] with threshold 0, the rule [chance], returns 0 on the
    empty list without failing: the frequencies of the empty list are empty,
    so no frequency passes the test, and [sum], which throws on the empty
    list, is not called. *)
Theorem chance_empty_hand :
  evalRoll chance [] = Returns 0
  ∧ freq [] = []
  ∧ some (λ c, c >=? 0) (freq []) = false
  ∧ sum [] = Throws TypeError.
Proof. repeat split. Qed.

(** C3, as the code has it.  No rule validates its hand: on a malformed hand
    (empty, of a length other than 5, or with a value outside 1..6)
    [evalRoll] raises nothing and returns a number, and every rule scores the
    empty hand 0.  Only the helper [sum] throws on the empty list, and
    [evalRoll] does not call it there. *)
Theorem malformed_hand_returns r dice :
  ¬ valid_hand dice →
  (∃ v, evalRoll r dice = Returns v)
  ∧ evalRoll r [] = Returns 0
  ∧ sum [] = Throws TypeError.
Proof.
  intros _. split; [apply evalRoll_returns|].
  split; [apply evalRoll_nil | reflexivity].
Qed.

(** C4, as the code has it.  For every exported rule and every hand of five
    dice between 1 and 6, [evalRoll] returns a documented value of the rule
    (the face value times the number of matching dice, the sum of the hand or
    0, the flat score or 0); the score is never negative, never above the
    flat score of the four flat rules, never above 30 for [sixes], and never
    above 30 for [fourOfKind], which pays the sum of all five dice. *)
Theorem exported_rule_score_bounds r dice :
  r ∈ exported_rules → valid_hand dice →
  ∃ v, evalRoll r dice = Returns v
     ∧ documented_value r dice v
     ∧ 0 ≤ v
     ∧ (∀ score, flat_score r = Some score → v ≤ score)
     ∧ (r = sixes → v ≤ 30)
     ∧ (r = fourOfKind → v ≤ 30).
Proof.
  intros Hr Hvalid.
  destruct (evalRoll_documented r dice Hvalid) as (v & Hv & Hdoc).
  exists v. split; [done|]. split; [done|].
  pose proof Hvalid as [Hlen Hall]. apply total_bounds in Hall.
  rewrite Hlen in Hall.
  assert (∀ val, 0 ≤ Z.of_nat (occurrences dice val) ≤ 5) as Hocc.
  { intros val. rewrite <- count_occurrences.
    pose proof (count_nonneg dice val). pose proof (count_le_length dice val).
    lia. }
  pose proof (Hocc 1). pose proof (Hocc 2). pose proof (Hocc 3).
  pose proof (Hocc 4). pose proof (Hocc 5). pose proof (Hocc 6).
  unfold exported_rules in Hr.
  repeat (apply elem_of_cons in Hr as [->|Hr]);
    try (by apply elem_of_nil in Hr);
    cbv [documented_value ones twos threes fours fives sixes threeOfKind
         fourOfKind fullHouse smallStraight largeStraight yahtzee chance]
      in Hdoc;
    (split; [lia|]);
    (split; [intros score' Hflat; cbn in Hflat;
             first [discriminate Hflat | injection Hflat as <-; lia]|]);
    split; intros Heq; first [lia | discriminate Heq].
Qed.

(** * Small straights against the longest run *)

Lemma face_elem_of v : 1 ≤ v ≤ 6 → v ∈ faces.
Proof. intros Hv. unfold faces. rewrite !elem_of_cons. lia. Qed.

(** The hands are finitely many: each is found in [all_hands]. *)
Lemma valid_hand_all_hands dice : valid_hand dice → dice ∈ all_hands.
Proof.
  intros [Hlen Hall].
  destruct dice as [|d1 [|d2 [|d3 [|d4 [|d5 [|]]]]]]; try discriminate Hlen.
  repeat (apply Forall_cons in Hall as [? Hall]).
  unfold all_hands.
  apply list_elem_of_bind; exists d1; split; [|by apply face_elem_of].
  apply list_elem_of_bind; exists d2; split; [|by apply face_elem_of].
  apply list_elem_of_bind; exists d3; split; [|by apply face_elem_of].
  apply list_elem_of_bind; exists d4; split; [|by apply face_elem_of].
  apply list_elem_of_bind; exists d5; split; [|by apply face_elem_of].
  by apply list_elem_of_singleton.
Qed.

(** On every hand, [smallStraight] agrees with the longest-run check except
    on the two sets of five distinct faces that hold a run of four next to
    both 1 and 6: 1-2-3-4-6 and 1-3-4-5-6, which it scores 0. *)
Lemma small_straight_vs_longest_run dice :
  valid_hand dice →
  evalRoll smallStraight dice =
    Returns (if decide (dice ≡ₚ [1; 2; 3; 4; 6] ∨ dice ≡ₚ [1; 3; 4; 5; 6])
             then 0
             else if decide (4 ≤ longest_run dice)%nat then 30 else 0).
Proof.
  intros Hvalid. apply valid_hand_all_hands in Hvalid. revert dice Hvalid.
  apply Forall_forall. apply (bool_decide_unpack _). vm_compute. reflexivity.
Qed.

(** C1, at the hand where the code departs from it.  The hand 1-2-3-4-6 is
    a hand of five dice between 1 and 6 whose faces hold the run 1-2-3-4, of
    length 4, yet [smallStraight] scores it 0 and not 30.  The two other
    hands named by the claim score as it says: 1-1-2-3-4 scores 30 and
    1-2-4-5-6, whose longest run has length 3, scores 0. *)
Theorem small_straight_misses_run :
  valid_hand [1; 2; 3; 4; 6]
  ∧ longest_run [1; 2; 3; 4; 6] = 4%nat
  ∧ evalRoll smallStraight [1; 2; 3; 4; 6] = Returns 0
  ∧ evalRoll smallStraight [1; 1; 2; 3; 4] = Returns 30
  ∧ longest_run [1; 2; 4; 5; 6] = 3%nat
  ∧ evalRoll smallStraight [1; 2; 4; 5; 6] = Returns 0.
Proof.
  split; [split; [reflexivity | repeat constructor; lia]|].
  repeat split.
Qed.

(** * Concrete hands *)

(** The large-straight theorem at 2-3-4-5-6. *)
Lemma large_straight_by_pattern_witness :
  valid_hand [2; 3; 4; 5; 6] ∧ large_straight_pattern [2; 3; 4; 5; 6].
Proof.
  assert (valid_hand [2; 3; 4; 5; 6]) as Hvalid by solve_valid_hand.
  split; [exact Hvalid|].
  apply (large_straight_by_pattern 40 "" [2; 3; 4; 5; 6] Hvalid).
  right. reflexivity.
Defined.

(** The of-a-kind theorem at 3-3-3-4-5 with threshold 3. *)
Lemma sum_distro_by_frequency_witness :
  valid_hand [3; 3; 3; 4; 5]
  ∧ evalRoll (SumDistro 3 "") [3; 3; 3; 4; 5] = Returns (total [3; 3; 3; 4; 5]).
Proof.
  assert (valid_hand [3; 3; 3; 4; 5]) as Hvalid by solve_valid_hand.
  split; [exact Hvalid|].
  apply (proj1 (sum_distro_by_frequency 3 "" [3; 3; 3; 4; 5] Hvalid)).
  exists 3. vm_compute. discriminate.
Defined.

(** The Yahtzee theorem at 4-4-4-4-4. *)
Lemma yahtzee_by_all_equal_witness :
  valid_hand [4; 4; 4; 4; 4]
  ∧ evalRoll (Yahtzee 50 "") [4; 4; 4; 4; 4] = Returns 50
  ∧ freq [4; 4; 4; 4; 4] = [5].
Proof.
  assert (valid_hand [4; 4; 4; 4; 4]) as Hvalid by solve_valid_hand.
  assert (all_equal [4; 4; 4; 4; 4]) as Hall
    by (apply all_equal_cons; repeat constructor).
  destruct (yahtzee_by_all_equal 50 "" [4; 4; 4; 4; 4] Hvalid)
    as (Hscore & _ & Hfreq & _).
  split; [exact Hvalid|]. split; [exact (Hscore Hall)|].
  exact (proj1 (Hfreq Hall)).
Defined.

(** The rearrangement theorem for [yahtzee] at 4-4-4-4-5 and 5-4-4-4-4. *)
Lemma evalRoll_Permutation_witness :
  valid_hand [4; 4; 4; 4; 5]
  ∧ [4; 4; 4; 4; 5] ≡ₚ [5; 4; 4; 4; 4]
  ∧ evalRoll yahtzee [5; 4; 4; 4; 4] = evalRoll yahtzee [4; 4; 4; 4; 5].
Proof.
  assert (valid_hand [4; 4; 4; 4; 5]) as Hvalid by solve_valid_hand.
  assert ([4; 4; 4; 4; 5] ≡ₚ [5; 4; 4; 4; 4]) as Hp
    by (apply (bool_decide_unpack _); vm_compute; reflexivity).
  split; [exact Hvalid|]. split; [exact Hp|].
  exact (evalRoll_Permutation yahtzee _ _ Hvalid Hp).
Defined.

(** The malformed-hand theorem at the two-dice list 7-7 under [ones]. *)
Lemma malformed_hand_returns_witness :
  ¬ valid_hand [7; 7] ∧ ∃ v, evalRoll ones [7; 7] = Returns v.
Proof.
  assert (¬ valid_hand [7; 7]) as Hbad by (intros [Hlen _]; discriminate Hlen).
  split; [exact Hbad|].
  exact (proj1 (malformed_hand_returns ones [7; 7] Hbad)).
Defined.

(** The empty hand is malformed, and [ones] scores it 0 instead of failing. *)
Lemma empty_hand_not_rejected :
  ¬ valid_hand [] ∧ evalRoll ones [] = Returns 0.
Proof.
  split; [intros [Hlen _]; discriminate Hlen | reflexivity].
Qed.

(** The bounds theorem at 6-6-6-6-6 under [fourOfKind]. *)
Lemma exported_rule_score_bounds_witness :
  fourOfKind ∈ exported_rules
  ∧ valid_hand [6; 6; 6; 6; 6]
  ∧ ∃ v, evalRoll fourOfKind [6; 6; 6; 6; 6] = Returns v ∧ v ≤ 30.
Proof.
  assert (fourOfKind ∈ exported_rules) as Hr
    by (unfold exported_rules; rewrite !elem_of_cons; tauto).
  assert (valid_hand [6; 6; 6; 6; 6]) as Hvalid by solve_valid_hand.
  split; [exact Hr|]. split; [exact Hvalid|].
  destruct (exported_rule_score_bounds fourOfKind _ Hr Hvalid)
    as (v & Hv & _ & _ & _ & _ & Hfour).
  exists v. split; [exact Hv | exact (Hfour eq_refl)].
Defined.

(** Five sixes score 30 under [fourOfKind], above 24. *)
Lemma four_of_kind_exceeds_24 :
  fourOfKind ∈ exported_rules
  ∧ valid_hand [6; 6; 6; 6; 6]
  ∧ evalRoll fourOfKind [6; 6; 6; 6; 6] = Returns 30
  ∧ ¬ 30 ≤ 24.
Proof.
  split; [unfold exported_rules; rewrite !elem_of_cons; tauto|].
  split; [solve_valid_hand|]. split; [reflexivity | lia].
Qed.

(** * Further properties of the helpers *)


(** X2. [freq] returns, for every distinct value of the list taken in the
    order of its first appearance, the number of dice with that value. *)
Theorem freq_lists_occurrences (dice : list Z) :
  freq dice = map (λ v, Z.of_nat (occurrences dice v)) (first_occurrences dice)
  ∧ NoDup (first_occurrences dice)
  ∧ (∀ v, v ∈ first_occurrences dice ↔ v ∈ dice)
  ∧ head (first_occurrences dice) = head dice.
Proof.
  split; [|split; [|split]].
  - rewrite freq_first_occurrences. apply map_ext. intros v.
    apply count_occurrences.
  - apply NoDup_first_occurrences.
  - intros v. apply elem_of_first_occurrences.
  - by destruct dice.
Qed.

(** X3. Every entry of [freq] is at least 1 and at most the number of dice,
    and [freq] has as many entries as the [Set] of the dice has members. *)
Theorem freq_entries (dice : list Z) :
  Forall (λ c, 1 ≤ c ≤ Z.of_nat (length dice)) (freq dice)
  ∧ length (freq dice) = size (list_to_set dice : gset Z).
Proof.
  split.
  - apply Forall_forall. intros c Hc.
    apply elem_of_freq in Hc as (v & Hv & ->).
    apply count_pos_iff in Hv. pose proof (count_le_length dice v). lia.
  - rewrite freq_first_occurrences, length_map.
    rewrite <- (size_list_to_set (C := gset Z) (first_occurrences dice))
      by apply NoDup_first_occurrences.
    f_equal. apply set_eq. intros v.
    by rewrite !elem_of_list_to_set, elem_of_first_occurrences.
Qed.

(** Each round of the loop of [freq] adds one to the total of the values
    held by the map, whatever the map. *)
Lemma freq_step_total (freqs : list (Z * Z)) (d : Z) :
  total (JsMap.values (freq_step freqs d)) = total (JsMap.values freqs) + 1.
Proof.
  unfold freq_step.
  induction freqs as [|[k c] freqs IH]; [reflexivity|].
  cbn [JsMap.get JsMap.set]. destruct (Z.eqb_spec k d) as [->|Hne].
  - unfold JsMap.values, total. cbn [map foldr snd or_zero].
    destruct (Z.eqb_spec c 0); lia.
  - unfold JsMap.values, total in *. cbn [map foldr snd]. rewrite IH. lia.
Qed.

(** X4. The entries of [freq] add up to the number of dice. *)
Theorem freq_total (dice : list Z) :
  total (freq dice) = Z.of_nat (length dice).
Proof.
  unfold freq, freq_map.
  induction dice as [|d dice IH] using rev_ind; [reflexivity|].
  rewrite fold_left_app. cbn [fold_left].
  rewrite freq_step_total, IH, length_app. cbn [length]. lia.
Qed.

(** X5. After the loop of [freq], the map holds under each value of the list
    the number of dice with that value, and no other key. *)
Theorem freq_map_lookup (dice : list Z) (v : Z) :
  JsMap.get (freq_map dice) v =
    if decide (v ∈ dice) then Some (Z.of_nat (occurrences dice v)) else None.
Proof.
  rewrite freq_map_graph, get_graph.
  destruct (decide (v ∈ dice)) as [Hin|Hnin].
  - rewrite decide_True by (by apply elem_of_first_occurrences).
    by rewrite count_occurrences.
  - by rewrite decide_False by (by rewrite elem_of_first_occurrences).
Qed.

(** X6. Rearranging the dice rearranges the frequencies: the order of the
    entries of [freq] follows the dice, their multiset does not. *)
Theorem freq_rearranged (dice dice' : list Z) :
  dice ≡ₚ dice' → freq dice ≡ₚ freq dice'.
Proof. apply freq_Permutation. Qed.

Lemma freq_rearranged_witness :
  [1; 1; 2] ≡ₚ [2; 1; 1] ∧ freq [1; 1; 2] ≡ₚ freq [2; 1; 1].
Proof.
  assert ([1; 1; 2] ≡ₚ [2; 1; 1]) as Hp
    by (apply (bool_decide_unpack _); vm_compute; reflexivity).
  split; [exact Hp | exact (freq_rearranged _ _ Hp)].
Defined.

(** X7. [count] is the number of dice equal to the value: it lies between 0
    and the number of dice, is 0 exactly when the value is absent, and is
    the number of dice exactly when every die shows the value. *)
Theorem count_characterisation (dice : list Z) (val : Z) :
  count dice val = Z.of_nat (occurrences dice val)
  ∧ 0 ≤ count dice val ≤ Z.of_nat (length dice)
  ∧ (count dice val = 0 ↔ val ∉ dice)
  ∧ (count dice val = Z.of_nat (length dice) ↔ Forall (λ d, d = val) dice).
Proof.
  split; [apply count_occurrences|].
  split; [split; [apply count_nonneg | apply count_le_length]|].
  split; [apply count_zero_iff | apply count_eq_length].
Qed.

(** * Further properties of the rules *)

Lemma weighted_counts_total (dice : list Z) :
  Forall (λ d, 1 ≤ d ≤ 6) dice →
  1 * count dice 1 + 2 * count dice 2 + 3 * count dice 3
  + 4 * count dice 4 + 5 * count dice 5 + 6 * count dice 6 = total dice.
Proof.
  induction 1 as [|d l Hd _ IH]; [reflexivity|].
  rewrite !count_cons. unfold total in *. cbn [foldr]. rewrite <- IH.
  destruct (Z.eqb_spec d 1), (Z.eqb_spec d 2), (Z.eqb_spec d 3),
    (Z.eqb_spec d 4), (Z.eqb_spec d 5), (Z.eqb_spec d 6); lia.
Qed.

(** X8. When every die shows a face between 1 and 6, the scores of [ones],
    [twos], [threes], [fours], [fives] and [sixes] add up to the total of the
    dice. *)
Theorem upper_section_adds_up (dice : list Z) :
  Forall (λ d, 1 ≤ d ≤ 6) dice →
  ∃ s1 s2 s3 s4 s5 s6,
    evalRoll ones dice = Returns s1 ∧ evalRoll twos dice = Returns s2
    ∧ evalRoll threes dice = Returns s3 ∧ evalRoll fours dice = Returns s4
    ∧ evalRoll fives dice = Returns s5 ∧ evalRoll sixes dice = Returns s6
    ∧ s1 + s2 + s3 + s4 + s5 + s6 = total dice.
Proof.
  intros Hfaces. do 6 eexists. repeat (split; [reflexivity|]).
  by apply weighted_counts_total.
Qed.

Lemma upper_section_adds_up_witness :
  Forall (λ d, 1 ≤ d ≤ 6) [2; 2; 2; 5; 6]
  ∧ ∃ s1 s2 s3 s4 s5 s6,
      evalRoll ones [2; 2; 2; 5; 6] = Returns s1
      ∧ evalRoll twos [2; 2; 2; 5; 6] = Returns s2
      ∧ evalRoll threes [2; 2; 2; 5; 6] = Returns s3
      ∧ evalRoll fours [2; 2; 2; 5; 6] = Returns s4
      ∧ evalRoll fives [2; 2; 2; 5; 6] = Returns s5
      ∧ evalRoll sixes [2; 2; 2; 5; 6] = Returns s6
      ∧ s1 + s2 + s3 + s4 + s5 + s6 = total [2; 2; 2; 5; 6].
Proof.
  assert (Forall (λ d, 1 ≤ d ≤ 6) [2; 2; 2; 5; 6]) as Hfaces
    by (repeat constructor; lia).
  split; [exact Hfaces | exact (upper_section_adds_up _ Hfaces)].
Defined.

(** X9. A [TotalOneNumber] rule for a value other than 0 scores 0 exactly
    when no die shows the value. *)
Theorem total_one_number_zero (val : Z) (description : string) (dice : list Z) :
  val ≠ 0 →
  evalRoll (TotalOneNumber val description) dice = Returns 0 ↔ val ∉ dice.
Proof.
  intros Hval. cbn [evalRoll]. rewrite <- count_zero_iff. split.
  - intros [= H]. lia.
  - intros ->. f_equal. lia.
Qed.

Lemma total_one_number_zero_witness :
  3 ≠ 0 ∧ (evalRoll threes [1; 2; 4; 5; 6] = Returns 0 ↔ 3 ∉ [1; 2; 4; 5; 6]).
Proof.
  assert (3 ≠ 0) as Hval by discriminate.
  split; [exact Hval | exact (total_one_number_zero 3 _ _ Hval)].
Defined.

Lemma some_at_least_weaken (c1 c2 : Z) (a : list Z) :
  c1 ≤ c2 →
  some (λ c, c >=? c2) a = true → some (λ c, c >=? c1) a = true.
Proof.
  intros Hle. unfold some. rewrite !existsb_exists.
  intros (c & Hc & Hge). exists c. split; [done|]. lia.
Qed.

(** X10. Raising the threshold of [SumDistro] can only turn the score into
    0: with a higher threshold the rule returns 0 or what it returns with the
    lower one. *)
Theorem sum_distro_threshold_monotone
    (c1 c2 : Z) (description1 description2 : string) (dice : list Z) :
  c1 ≤ c2 →
  evalRoll (SumDistro c2 description2) dice = Returns 0
  ∨ evalRoll (SumDistro c2 description2) dice
    = evalRoll (SumDistro c1 description1) dice.
Proof.
  intros Hle. cbn [evalRoll].
  destruct (some (λ c, c >=? c2) (freq dice)) eqn:Hhigh; [|by left].
  right. by rewrite (some_at_least_weaken c1 c2 _ Hle Hhigh).
Qed.

Lemma sum_distro_threshold_monotone_witness :
  3 ≤ 4
  ∧ (evalRoll fourOfKind [3; 3; 3; 4; 5] = Returns 0
     ∨ evalRoll fourOfKind [3; 3; 3; 4; 5] = evalRoll threeOfKind [3; 3; 3; 4; 5]).
Proof.
  assert (3 ≤ 4) as Hle by lia.
  split; [exact Hle|].
  exact (sum_distro_threshold_monotone 3 4 _ _ [3; 3; 3; 4; 5] Hle).
Defined.



(** X12. With a threshold above the number of dice, [SumDistro] returns 0. *)
Theorem sum_distro_high_threshold (c : Z) (description : string) (dice : list Z) :
  Z.of_nat (length dice) < c →
  evalRoll (SumDistro c description) dice = Returns 0.
Proof.
  intros Hc. cbn [evalRoll].
  destruct (some (λ c', c' >=? c) (freq dice)) eqn:Hsome; [|reflexivity].
  apply some_freq in Hsome as (v & _ & Hv).
  pose proof (count_le_length dice v). lia.
Qed.

Lemma sum_distro_high_threshold_witness :
  Z.of_nat (length [6; 6; 6; 6; 6]) < 6
  ∧ evalRoll (SumDistro 6 "") [6; 6; 6; 6; 6] = Returns 0.
Proof.
  assert (Z.of_nat (length [6; 6; 6; 6; 6]) < 6) as Hc by (cbn [length]; lia).
  split; [exact Hc | exact (sum_distro_high_threshold 6 "" _ Hc)].
Defined.

(** X13. On a list of any length, [Yahtzee] pays exactly when the first die
    has exactly five occurrences in the list; the empty list scores 0. *)
Theorem yahtzee_first_die
    (score : Z) (description : string) (d : Z) (dice : list Z) :
  evalRoll (Yahtzee score description) (d :: dice) =
    Returns (if decide (occurrences (d :: dice) d = 5%nat) then score else 0)
  ∧ evalRoll (Yahtzee score description) [] = Returns 0.
Proof.
  split; [|reflexivity]. cbn [evalRoll]. unfold first_is.
  rewrite freq_head, count_occurrences. f_equal.
  destruct (Z.eqb_spec (Z.of_nat (occurrences (d :: dice) d)) 5) as [Heq|Hne].
  - rewrite decide_True by lia. reflexivity.
  - rewrite decide_False by lia. reflexivity.
Qed.

(** X14. Whatever pays as a large straight pays as a small straight: when
    [LargeStraight] returns its score, and that score is not 0, [SmallStraight]
    returns its own. *)
Theorem large_straight_is_small_straight
    (score_large score_small : Z) (description_large description_small : string)
    (dice : list Z) :
  score_large ≠ 0 →
  evalRoll (LargeStraight score_large description_large) dice
    = Returns score_large →
  evalRoll (SmallStraight score_small description_small) dice
    = Returns score_small.
Proof.
  intros Hscore. cbn [evalRoll]. cbv zeta.
  destruct ((size _ =? 5)%nat && _) eqn:Hlarge.
  - intros _. by rewrite orb_true_r.
  - intros [= H]. congruence.
Qed.

Lemma large_straight_is_small_straight_witness :
  40 ≠ 0
  ∧ evalRoll largeStraight [2; 3; 4; 5; 6] = Returns 40
  ∧ evalRoll smallStraight [2; 3; 4; 5; 6] = Returns 30.
Proof.
  assert (40 ≠ 0) as Hscore by discriminate.
  assert (evalRoll largeStraight [2; 3; 4; 5; 6] = Returns 40) as Hlarge
    by (vm_compute; reflexivity).
  split; [exact Hscore|]. split; [exact Hlarge|].
  exact (large_straight_is_small_straight 40 30 _ _ _ Hscore Hlarge).
Defined.

(** * How the rules relate on a hand *)

(** A decidable property of hands that holds on each member of [all_hands]
    holds on every hand. *)
Ltac by_all_hands :=
  let Hvalid := fresh "Hvalid" in
  intros Hvalid; apply valid_hand_all_hands in Hvalid;
  match goal with
  | Hin : ?dice ∈ all_hands |- _ => revert dice Hin
  end;
  match goal with
  | |- ∀ dice, dice ∈ all_hands → @?P dice =>
      apply (proj1 (Forall_forall P all_hands));
      apply (bool_decide_unpack _); vm_compute; reflexivity
  end.

(** X15. A hand that scores as a Yahtzee scores 0 as a full house and as
    either straight, and scores its total under [threeOfKind] and
    [fourOfKind], as under [chance]. *)
Theorem yahtzee_hand_elsewhere (dice : list Z) :
  valid_hand dice →
  evalRoll yahtzee dice = Returns 50 →
  evalRoll fullHouse dice = Returns 0
  ∧ evalRoll smallStraight dice = Returns 0
  ∧ evalRoll largeStraight dice = Returns 0
  ∧ evalRoll threeOfKind dice = evalRoll chance dice
  ∧ evalRoll fourOfKind dice = evalRoll chance dice.
Proof. by_all_hands. Qed.

Lemma yahtzee_hand_elsewhere_witness :
  valid_hand [4; 4; 4; 4; 4]
  ∧ evalRoll yahtzee [4; 4; 4; 4; 4] = Returns 50
  ∧ evalRoll fullHouse [4; 4; 4; 4; 4] = Returns 0.
Proof.
  assert (valid_hand [4; 4; 4; 4; 4]) as Hvalid by solve_valid_hand.
  assert (evalRoll yahtzee [4; 4; 4; 4; 4] = Returns 50) as Hpays
    by (vm_compute; reflexivity).
  split; [exact Hvalid|]. split; [exact Hpays|].
  exact (proj1 (yahtzee_hand_elsewhere _ Hvalid Hpays)).
Defined.

(** X16. A hand that scores as a full house scores its total under
    [threeOfKind], and 0 under [fourOfKind], [yahtzee] and both straights. *)
Theorem full_house_hand_elsewhere (dice : list Z) :
  valid_hand dice →
  evalRoll fullHouse dice = Returns 25 →
  evalRoll threeOfKind dice = evalRoll chance dice
  ∧ evalRoll fourOfKind dice = Returns 0
  ∧ evalRoll yahtzee dice = Returns 0
  ∧ evalRoll smallStraight dice = Returns 0
  ∧ evalRoll largeStraight dice = Returns 0.
Proof. by_all_hands. Qed.

Lemma full_house_hand_elsewhere_witness :
  valid_hand [2; 2; 3; 3; 3]
  ∧ evalRoll fullHouse [2; 2; 3; 3; 3] = Returns 25
  ∧ evalRoll threeOfKind [2; 2; 3; 3; 3] = evalRoll chance [2; 2; 3; 3; 3].
Proof.
  assert (valid_hand [2; 2; 3; 3; 3]) as Hvalid by solve_valid_hand.
  assert (evalRoll fullHouse [2; 2; 3; 3; 3] = Returns 25) as Hpays
    by (vm_compute; reflexivity).
  split; [exact Hvalid|]. split; [exact Hpays|].
  exact (proj1 (full_house_hand_elsewhere _ Hvalid Hpays)).
Defined.

(** X17. A hand that scores as a small straight scores 0 under
    [threeOfKind], [fourOfKind], [fullHouse] and [yahtzee]. *)
Theorem small_straight_hand_elsewhere (dice : list Z) :
  valid_hand dice →
  evalRoll smallStraight dice = Returns 30 →
  evalRoll threeOfKind dice = Returns 0
  ∧ evalRoll fourOfKind dice = Returns 0
  ∧ evalRoll fullHouse dice = Returns 0
  ∧ evalRoll yahtzee dice = Returns 0.
Proof. by_all_hands. Qed.

Lemma small_straight_hand_elsewhere_witness :
  valid_hand [1; 1; 2; 3; 4]
  ∧ evalRoll smallStraight [1; 1; 2; 3; 4] = Returns 30
  ∧ evalRoll threeOfKind [1; 1; 2; 3; 4] = Returns 0.
Proof.
  assert (valid_hand [1; 1; 2; 3; 4]) as Hvalid by solve_valid_hand.
  assert (evalRoll smallStraight [1; 1; 2; 3; 4] = Returns 30) as Hpays
    by (vm_compute; reflexivity).
  split; [exact Hvalid|]. split; [exact Hpays|].
  exact (proj1 (small_straight_hand_elsewhere _ Hvalid Hpays)).
Defined.

Lemma full_house_hand_shape (dice : list Z) :
  valid_hand dice →
  evalRoll fullHouse dice = Returns 25 →
  Exists (λ a, Exists (λ b, a ≠ b ∧ dice ≡ₚ [a; a; a; b; b]) faces) faces.
Proof. by_all_hands. Qed.

Lemma full_house_three_two (a b : Z) :
  a ≠ b → evalRoll fullHouse [a; a; a; b; b] = Returns 25.
Proof.
  intros Hab. cbn [evalRoll fullHouse].
  assert (has_frequency [a; a; a; b; b] 3) as H3.
  { exists a. split; [left|]. unfold occurrences. cbn [count_occ].
    repeat destruct (Z.eq_dec _ _); congruence. }
  assert (has_frequency [a; a; a; b; b] 2) as H2.
  { exists b. split; [do 3 right; left|]. unfold occurrences. cbn [count_occ].
    repeat destruct (Z.eq_dec _ _); congruence. }
  apply (some_exactly _ 3) in H3. apply (some_exactly _ 2) in H2.
  change (Z.of_nat 3) with 3 in H3. change (Z.of_nat 2) with 2 in H2.
  by rewrite H3, H2.
Qed.

(** X18. A hand scores as a full house exactly when it consists of three
    dice of one face and two dice of another face. *)
Theorem full_house_three_and_two (dice : list Z) :
  valid_hand dice →
  evalRoll fullHouse dice = Returns 25 ↔
    ∃ a b, a ≠ b ∧ dice ≡ₚ [a; a; a; b; b].
Proof.
  intros Hvalid. split.
  - intros Hpays.
    apply (full_house_hand_shape dice Hvalid) in Hpays.
    apply Exists_exists in Hpays as (a & _ & Hb).
    apply Exists_exists in Hb as (b & _ & Hab). eauto.
  - intros (a & b & Hab & Hp). rewrite <- (full_house_three_two a b Hab).
    cbn [evalRoll fullHouse].
    by rewrite !(some_Permutation _ _ _ (freq_Permutation _ _ Hp)).
Qed.

Lemma full_house_three_and_two_witness :
  valid_hand [3; 2; 3; 2; 3]
  ∧ (evalRoll fullHouse [3; 2; 3; 2; 3] = Returns 25 ↔
       ∃ a b, a ≠ b ∧ [3; 2; 3; 2; 3] ≡ₚ [a; a; a; b; b]).
Proof.
  assert (valid_hand [3; 2; 3; 2; 3]) as Hvalid by solve_valid_hand.
  split; [exact Hvalid | exact (full_house_three_and_two _ Hvalid)].
Defined.

(** X19. A hand scores as a small straight exactly when its faces hold a run
    of four consecutive values and the hand is neither 1-2-3-4-6 nor
    1-3-4-5-6 in some order. *)
Theorem small_straight_exact (dice : list Z) :
  valid_hand dice →
  evalRoll smallStraight dice = Returns 30 ↔
    (4 ≤ longest_run dice)%nat
    ∧ ¬ dice ≡ₚ [1; 2; 3; 4; 6] ∧ ¬ dice ≡ₚ [1; 3; 4; 5; 6].
Proof.
  intros Hvalid. rewrite (small_straight_vs_longest_run dice Hvalid).
  destruct (decide (dice ≡ₚ [1; 2; 3; 4; 6] ∨ dice ≡ₚ [1; 3; 4; 5; 6]))
    as [Hbroken|Hrun].
  - split; [intros [= ?] | tauto].
  - destruct (decide (4 ≤ longest_run dice)%nat) as [Hlong|Hshort].
    + split; [tauto | reflexivity].
    + split; [intros [= ?] | tauto].
Qed.

Lemma small_straight_exact_witness :
  valid_hand [1; 3; 4; 5; 6]
  ∧ (evalRoll smallStraight [1; 3; 4; 5; 6] = Returns 30 ↔
       (4 ≤ longest_run [1; 3; 4; 5; 6]%Z)%nat
       ∧ ¬ [1; 3; 4; 5; 6] ≡ₚ [1; 2; 3; 4; 6]
       ∧ ¬ [1; 3; 4; 5; 6] ≡ₚ [1; 3; 4; 5; 6]).
Proof.
  assert (valid_hand [1; 3; 4; 5; 6]) as Hvalid by solve_valid_hand.
  split; [exact Hvalid | exact (small_straight_exact _ Hvalid)].
Defined.

(** X20. Both straights look at the set of values only: two lists with the
    same values, whatever their lengths and repetitions, get the same score. *)
Theorem straights_depend_on_faces
    (score : Z) (description : string) (dice dice' : list Z) :
  (∀ v, v ∈ dice ↔ v ∈ dice') →
  evalRoll (SmallStraight score description) dice
    = evalRoll (SmallStraight score description) dice'
  ∧ evalRoll (LargeStraight score description) dice
    = evalRoll (LargeStraight score description) dice'.
Proof.
  intros Hsame.
  assert ((list_to_set dice : gset Z) = list_to_set dice') as Hset.
  { apply set_eq. intros v. by rewrite !elem_of_list_to_set. }
  cbn [evalRoll]. by rewrite Hset.
Qed.

Lemma straights_depend_on_faces_witness :
  (∀ v, v ∈ [1; 2; 3; 4] ↔ v ∈ [4; 4; 3; 2; 1; 1; 1])
  ∧ evalRoll smallStraight [1; 2; 3; 4]
    = evalRoll smallStraight [4; 4; 3; 2; 1; 1; 1].
Proof.
  assert (∀ v, v ∈ [1; 2; 3; 4] ↔ v ∈ [4; 4; 3; 2; 1; 1; 1]) as Hsame
    by (intros v; rewrite !elem_of_cons; tauto).
  split; [exact Hsame|].
  exact (proj1 (straights_depend_on_faces 30 _ _ _ Hsame)).
Defined.

(** X21. A list that holds both a 1 and a 6 scores 0 as a small straight and
    as a large straight, whatever else it holds. *)
Theorem straights_reject_one_and_six
    (score : Z) (description : string) (dice : list Z) :
  1 ∈ dice → 6 ∈ dice →
  evalRoll (SmallStraight score description) dice = Returns 0
  ∧ evalRoll (LargeStraight score description) dice = Returns 0.
Proof.
  intros H1 H6. cbn [evalRoll]. cbv zeta. rewrite !has_list_to_set.
  rewrite (bool_decide_eq_true_2 _ H1), (bool_decide_eq_true_2 _ H6).
  cbn [negb].
  destruct (size (list_to_set dice : gset Z) =? 4)%nat,
    (size (list_to_set dice : gset Z) =? 5)%nat,
    (bool_decide (2 ∈ dice)), (bool_decide (5 ∈ dice)); by split.
Qed.

Lemma straights_reject_one_and_six_witness :
  1 ∈ [1; 2; 3; 4; 5; 6] ∧ 6 ∈ [1; 2; 3; 4; 5; 6]
  ∧ evalRoll smallStraight [1; 2; 3; 4; 5; 6] = Returns 0
  ∧ evalRoll largeStraight [1; 2; 3; 4; 5; 6] = Returns 0.
Proof.
  assert (1 ∈ [1; 2; 3; 4; 5; 6]) as H1 by left.
  assert (6 ∈ [1; 2; 3; 4; 5; 6]) as H6 by (do 5 right; left).
  split; [exact H1|]. split; [exact H6|].
  exact (straights_reject_one_and_six _ _ _ H1 H6).
Defined.

(** * The rule row *)

Section rule_row.

Context {Score : Type}.

Implicit Types (this : RuleRow.Instance) (props : RuleRow.Props (Score := Score)).

(** A click on an idle component (nothing queued) leaves it clicked and
    idle, and calls [doScore] only if it was not clicked before. *)
Lemma click_idle (b : bool) :
  RuleRow.click
    {| RuleRow.state := {| RuleRow.clicked := b |}; RuleRow.queued := [] |}
  = ({| RuleRow.state := {| RuleRow.clicked := true |};
        RuleRow.queued := [] |},
     if b then [] else [RuleRow.DoScore]).
Proof. reflexivity. Qed.

Lemma clicks_clicked (n : nat) :
  RuleRow.clicks n
    {| RuleRow.state := {| RuleRow.clicked := true |}; RuleRow.queued := [] |}
  = ({| RuleRow.state := {| RuleRow.clicked := true |};
        RuleRow.queued := [] |}, []).
Proof.
  induction n as [|n IH]; [reflexivity|].
  cbn [RuleRow.clicks]. rewrite click_idle, IH. reflexivity.
Qed.

(** X22. However often a fresh row is clicked, [doScore] is called once, by
    the first click, and never again. *)
Theorem clicks_call_doScore_once (n : nat) :
  snd (RuleRow.clicks n RuleRow.constructor) =
    match n with
    | O => []
    | S _ => [RuleRow.DoScore]
    end.
Proof.
  destruct n as [|n]; [reflexivity|].
  unfold RuleRow.constructor. cbn [RuleRow.clicks].
  rewrite click_idle, clicks_clicked. reflexivity.
Qed.

(** X23. A fresh row is rendered active and shows the description; after
    any number of clicks, at least one, it is rendered disabled and shows the
    score.  The name is shown in both states. *)
Theorem render_after_clicks props (n : nat) :
  RuleRow.render props (fst (RuleRow.clicks n RuleRow.constructor)) =
    match n with
    | O =>
        {| RuleRow.className := "RuleRow RuleRow-active";
           RuleRow.nameCell := RuleRow.name props;
           RuleRow.scoreCell :=
             RuleRow.DescriptionCell (RuleRow.description props) |}
    | S _ =>
        {| RuleRow.className := "RuleRow RuleRow-disabled";
           RuleRow.nameCell := RuleRow.name props;
           RuleRow.scoreCell := RuleRow.ScoreCell (RuleRow.score props) |}
    end.
Proof.
  destruct n as [|n]; [reflexivity|].
  unfold RuleRow.constructor. cbn [RuleRow.clicks].
  rewrite click_idle, clicks_clicked. reflexivity.
Qed.

End rule_row.
